(** * ghii-yaml-loader: a shallow embedding of the YAML file loader

    The repository holds two revisions of [yamlLoader]:
    - [LoaderV1]: src/src/yaml-loader.ts (built on @ghii/ghii, js-yaml 3),
      which checks that the path exists when the factory is called;
    - [LoaderV2]: src/unnamed/part_000 (built on @ghii/ghii-v2, js-yaml 4),
      which checks that the path exists on every invocation of the loader.
    A documented copy of the second revision, which returns right after a
    failed check, follows the tests in src/src/__test__/yaml-loader.test.ts:
    it is [LoaderV3].

    All are embedded over one model of the Node primitives they call:
    [fs.existsSync], [fs.stat], [fs.readFile], [path.join], [yaml.load]
    and the logger callback. *)

From Stdlib Require Import Ascii.
From stdpp Require Import base strings list gmap.

Set Default Proof Using "Type".
Set Warnings "-register-all".
Open Scope string_scope.
Open Scope list_scope.

(** ** JavaScript values and thrown values *)

(** What [yaml.load] produces, and the object literals of the source. *)
Inductive JsValue : Type :=
| JUndefined
| JNull
| JBool (b : bool)
| JNum (n : Z)
| JStr (s : string)
| JArr (items : list JsValue)
| JObj (fields : list (string * JsValue)).

(** An instance of [Error] (or of a subclass: [err_name] tells which). *)
Record JsError : Type := mkError { err_name : string; err_message : string }.

(** Anything a [throw] can carry and a [catch] can receive; the logger's
    first argument has the same type ([unknown] in the source). *)
Inductive JsThrown : Type :=
| ErrorInstance (e : JsError)
| PlainValue (v : JsValue).

(** [new Error(msg)] *)
Definition new_Error (msg : string) : JsThrown :=
  ErrorInstance (mkError "Error" msg).

(** [err instanceof Error ? err.message : ''] *)
Definition message_or_empty (err : JsThrown) : string :=
  match err with
  | ErrorInstance e => err_message e
  | PlainValue _ => EmptyString
  end.

(** The empty mapping [{}]. *)
Definition empty_object : JsValue := JObj [].

(** How a statement or a call ends: normally with a value, or by a throw.
    For an [async] function, [Normal v] is a promise resolved with [v] and
    [Abrupt e] a promise rejected with [e]. *)
Inductive Completion (A : Type) : Type :=
| Normal (a : A)
| Abrupt (e : JsThrown).
Arguments Normal {A} a.
Arguments Abrupt {A} e.

(** ** The filesystem *)

Inductive EntryKind : Type := RegularFile | Directory | OtherEntry.

(** An entry of the filesystem: its type, and what reading it as UTF-8 text
    gives (the text, or the system error of the read). *)
Record Entry : Type := mkEntry {
  entry_kind : EntryKind;
  entry_read : Completion string
}.

Abbreviation FS := (gmap string Entry).

(** The system errors of Node, e.g.
    [ENOENT: no such file or directory, stat '/a/b'].  The quote character
    is written by its code. *)
Definition quote : string := String (Ascii.ascii_of_nat 39) EmptyString.

Definition system_error (code description syscall path : string) : JsThrown :=
  ErrorInstance
    (mkError "Error"
       (code +:+ ": " +:+ description +:+ ", " +:+ syscall +:+ " "
          +:+ quote +:+ path +:+ quote)).

Definition ENOENT (syscall path : string) : JsThrown :=
  system_error "ENOENT" "no such file or directory" syscall path.
Definition EACCES (syscall path : string) : JsThrown :=
  system_error "EACCES" "permission denied" syscall path.
Definition EISDIR : JsThrown :=
  ErrorInstance (mkError "Error" "EISDIR: illegal operation on a directory, read").

(** A readable regular file, a regular file that cannot be opened, and a
    directory. *)
Definition file (content : string) : Entry := mkEntry RegularFile (Normal content).
Definition locked_file (path : string) : Entry :=
  mkEntry RegularFile (Abrupt (EACCES "open" path)).
Definition directory : Entry := mkEntry Directory (Abrupt EISDIR).

(** [fs.Stats], as far as the loader looks at it. *)
Record Stats : Type := mkStats { stats_kind : EntryKind }.

Definition isFile (s : Stats) : bool :=
  match stats_kind s with RegularFile => true | _ => false end.

(** The three reads of the filesystem, on a snapshot. *)
Definition exists_in (fs : FS) (path : string) : bool :=
  match fs !! path with Some _ => true | None => false end.

Definition stat_in (fs : FS) (path : string) : Completion Stats :=
  match fs !! path with
  | Some e => Normal (mkStats (entry_kind e))
  | None => Abrupt (ENOENT "stat" path)
  end.

Definition read_in (fs : FS) (path : string) : Completion string :=
  match fs !! path with
  | Some e => entry_read e
  | None => Abrupt (ENOENT "open" path)
  end.

(** The writes the tests perform around the loader ([rmSync],
    [copyFileSync]).  The loader calls none of them. *)
Definition rmSync (path : string) (fs : FS) : FS := delete path fs.

Definition copyFileSync (src dest : string) (fs : FS) : FS :=
  match fs !! src with
  | Some e => <[dest := e]> fs
  | None => fs
  end.

(** ** Observable events *)

(** What an observer of the process sees.  A logger given by the caller is a
    callback of type [(err, message) => void]: it is named and otherwise
    opaque, and its call is the event. *)
Inductive Event : Type :=
| EvPathJoin (segments : list string)              (* path.join(...segments) *)
| EvExistsSync (path : string)                     (* fs.existsSync(path) *)
| EvStat (path : string)                           (* fs.stat(path) *)
| EvReadFile (path : string)                       (* fs.readFile(path, utf8) *)
| EvCallback (id : string) (err : JsThrown) (message : string)
                                                   (* logger(err, message) *)
| EvConsoleLog (message : string) (err : JsThrown) (* console.log(message, err) *).

(** The calls of the logger in a trace, as [(err, message)], oldest first. *)
Definition logger_call (ev : Event) : option (JsThrown * string) :=
  match ev with
  | EvCallback _ err message => Some (err, message)
  | EvConsoleLog message err => Some (err, message)
  | _ => None
  end.

Definition logger_calls (evs : list Event) : list (JsThrown * string) :=
  omap logger_call evs.

(** The paths of the filesystem accesses in a trace. *)
Definition fs_access (ev : Event) : option string :=
  match ev with
  | EvExistsSync p | EvStat p | EvReadFile p => Some p
  | _ => None
  end.

Definition fs_accesses (evs : list Event) : list string := omap fs_access evs.

Definition path_join_call (ev : Event) : option (list string) :=
  match ev with
  | EvPathJoin segments => Some segments
  | _ => None
  end.

Definition path_join_calls (evs : list Event) : list (list string) :=
  omap path_join_call evs.

(** ** The world and the monad of effects *)

(** [world_fs] is the filesystem now, [world_trace] the events so far
    (oldest first), and [world_pending] what other processes do to the
    filesystem while the next asynchronous operations are in flight: one
    change per awaited operation, none when the list is used up. *)
Record World : Type := mkWorld {
  world_fs : FS;
  world_trace : list Event;
  world_pending : list (FS → FS)
}.

Definition M (A : Type) : Type := World → Completion A * World.

Definition ret {A} (a : A) : M A := λ w, (Normal a, w).

Definition bind {A B} (m : M A) (k : A → M B) : M B :=
  λ w, match m w with
       | (Normal a, w') => k a w'
       | (Abrupt e, w') => (Abrupt e, w')
       end.

Definition throw {A} (e : JsThrown) : M A := λ w, (Abrupt e, w).

(** [try { body } catch (err) { handler err }]: what the body did to the
    world before it threw stays done. *)
Definition try_catch {A} (body : M A) (handler : JsThrown → M A) : M A :=
  λ w, match body w with
       | (Normal a, w') => (Normal a, w')
       | (Abrupt e, w') => handler e w'
       end.

(** Lifting a library call that may throw. *)
Definition lift {A} (c : Completion A) : M A := λ w, (c, w).

Declare Scope js_scope.
Delimit Scope js_scope with js.
Notation "x <- m ;; k" := (bind m (λ x, k))
  (at level 100, m at next level, right associativity) : js_scope.
Notation "m ;; k" := (bind m (λ _, k))
  (at level 100, right associativity) : js_scope.
Open Scope js_scope.

(** [if (c) throw e;] *)
Definition throw_if (c : bool) (e : JsThrown) : M unit :=
  if c then throw e else ret tt.

Definition emit (ev : Event) : M unit :=
  λ w, (Normal tt, mkWorld (world_fs w) (world_trace w ++ [ev]) (world_pending w)).

(** The other processes' turn, taken while an asynchronous operation is in
    flight. *)
Definition interleave : M unit :=
  λ w, match world_pending w with
       | [] => (Normal tt, w)
       | change :: rest =>
           (Normal tt, mkWorld (change (world_fs w)) (world_trace w) rest)
       end.

(** A read of the filesystem as it is now. *)
Definition observe {A} (read : FS → Completion A) : M A :=
  λ w, (read (world_fs w), w).

(** [fs.existsSync(path)]: synchronous, sees the filesystem as it is. *)
Definition existsSync (path : string) : M bool :=
  emit (EvExistsSync path);;
  observe (λ fs, Normal (exists_in fs path)).

(** [await stat(path)] *)
Definition stat (path : string) : M Stats :=
  interleave;;
  emit (EvStat path);;
  observe (λ fs, stat_in fs path).

(** [await readFile(path, { encoding: 'utf8' })] *)
Definition readFile (path : string) : M string :=
  interleave;;
  emit (EvReadFile path);;
  observe (λ fs, read_in fs path).

(** [logger(err, message)], with the default of the source:
    [logger = (err, message) => console.log(message, err)].  Here the call
    is recorded and returns, as a function of type [void] does; [AnyEnv]
    below takes the logger as the caller's own program, which may throw. *)
Definition logger_event (logger : option string) (err : JsThrown) (message : string)
  : Event :=
  match logger with
  | Some id => EvCallback id err message
  | None => EvConsoleLog message err
  end.

Definition call_logger (logger : option string) (err : JsThrown) (message : string)
  : M unit :=
  emit (logger_event logger err message).

(** The options object of the factory; both fields may be left out. *)
Record Options : Type := mkOptions {
  throwOnError : option bool;
  logger : option string
}.

(** [if (throwOnError)]: [undefined] is falsy. *)
Definition truthy (flag : option bool) : bool := default false flag.

(** The loader handed to the configuration manager. *)
Definition Loader : Type := M JsValue.

(** ** [path.join] on a POSIX platform *)

Module Posix.

(** The segments of a path between its separators. *)
Fixpoint split_path (current path : string) : list string :=
  match path with
  | EmptyString => [current]
  | String c rest =>
      if Ascii.eqb c "/"%char then current :: split_path EmptyString rest
      else split_path (current +:+ String c EmptyString) rest
  end.

Fixpoint join_with_slash (segments : list string) : string :=
  match segments with
  | [] => EmptyString
  | [s] => s
  | s :: rest => s +:+ "/" +:+ join_with_slash rest
  end.

(** Resolution of [.] and [..]; [kept] holds the segments kept so far,
    last one first. *)
Fixpoint normalizeString (allowAboveRoot : bool) (segments kept : list string)
  : list string :=
  match segments with
  | [] => rev kept
  | seg :: rest =>
      if String.eqb seg EmptyString || String.eqb seg "." then
        normalizeString allowAboveRoot rest kept
      else if String.eqb seg ".." then
        match kept with
        | last :: kept' =>
            if String.eqb last ".." then
              normalizeString allowAboveRoot rest
                (if allowAboveRoot then ".." :: kept else kept)
            else normalizeString allowAboveRoot rest kept'
        | [] =>
            normalizeString allowAboveRoot rest
              (if allowAboveRoot then [".."] else [])
        end
      else normalizeString allowAboveRoot rest (seg :: kept)
  end.

Definition starts_with_slash (path : string) : bool :=
  match path with
  | String c _ => Ascii.eqb c "/"%char
  | EmptyString => false
  end.

Fixpoint ends_with_slash (path : string) : bool :=
  match path with
  | EmptyString => false
  | String c EmptyString => Ascii.eqb c "/"%char
  | String _ rest => ends_with_slash rest
  end.

Definition normalize (path : string) : string :=
  if String.eqb path EmptyString then "."
  else
    let isAbsolute := starts_with_slash path in
    let trailingSeparator := ends_with_slash path in
    let body :=
      join_with_slash
        (normalizeString (negb isAbsolute) (split_path EmptyString path) []) in
    if String.eqb body EmptyString then
      if isAbsolute then "/" else if trailingSeparator then "./" else "."
    else
      let body := if trailingSeparator then body +:+ "/" else body in
      if isAbsolute then "/" +:+ body else body.

(** [path.join(...segments)]: the non-empty segments joined by the
    separator, then normalized. *)
Definition join (segments : list string) : string :=
  match filter (λ s, s ≠ EmptyString) segments with
  | [] => "."
  | nonempty => normalize (join_with_slash nonempty)
  end.

End Posix.

(** ** The two revisions of the loader *)

(** What the loader takes from its platform: [path.join] of Node, and the
    parser of the js-yaml it is installed with, text in, document out, or a
    throw on malformed text.  An instance is the platform one revision runs
    on: its [yaml_load] is [yaml.safeLoad] of js-yaml 3 under the first
    revision and [yaml.load] of js-yaml 4 under the second, and nothing
    says that the two agree. *)
Class Platform : Type := mkPlatform {
  path_join : list string → string;
  yaml_load : string → Completion JsValue
}.

(** [path.join(...filePathToken)], with the call recorded. *)
Definition call_path_join `{Platform} (filePathToken : list string) : M string :=
  emit (EvPathJoin filePathToken);;
  ret (path_join filePathToken).

(** The handler shared by both revisions:
[[
    catch (err) {
      const msg = `FILE DELETED OR A DIRECTORY-> ${sourcePath} 404: ${err instanceof Error ? err.message : ''}`;
      logger(err, msg);
      if (throwOnError) throw new Error(msg);
      return {};
    }
]] *)
Definition generic_message (sourcePath : string) (err : JsThrown) : string :=
  "FILE DELETED OR A DIRECTORY-> " +:+ sourcePath +:+ " 404: "
    +:+ message_or_empty err.

Definition catch_handler (options : Options) (sourcePath : string)
    (err : JsThrown) : M JsValue :=
  let msg := generic_message sourcePath err in
  call_logger (logger options) err msg;;
  throw_if (truthy (throwOnError options)) (new_Error msg);;
  ret empty_object.

Definition not_found_message (sourcePath : string) : string :=
  sourcePath +:+ " 404".

Definition not_a_file_message (sourcePath : string) : string :=
  "Source " +:+ sourcePath +:+ " is not a file".

(** [{ msg: 'not exist' }] *)
Definition not_exist_marker : JsThrown :=
  PlainValue (JObj [("msg", JStr "not exist")]).

(** The existence check of both revisions (at construction in the first,
    at invocation in the second):
[[
    if (!existsSync(sourcePath)) {
      logger({ msg: 'not exist' }, `${sourcePath} 404`);
      if (throwOnError) throw new Error(`${sourcePath} 404`);
    }
]] *)
Definition existence_check (options : Options) (sourcePath : string) : M unit :=
  found <- existsSync sourcePath;;
  if negb found then
    call_logger (logger options) not_exist_marker (not_found_message sourcePath);;
    throw_if (truthy (throwOnError options)) (new_Error (not_found_message sourcePath))
  else ret tt.

(** *** src/src/yaml-loader.ts *)
Module LoaderV1.
Section WithPlatform.
Context `{Platform}.

Definition yamlFileLoader (options : Options) (sourcePath : string) : Loader :=
  try_catch
    (fstat <- stat sourcePath;;
     if isFile fstat then
       yamlContent <- readFile sourcePath;;
       lift (yaml_load yamlContent)
     else throw (new_Error (not_a_file_message sourcePath)))
    (catch_handler options sourcePath).

Definition yamlLoader (options : Options) (filePathToken : list string)
  : M Loader :=
  sourcePath <- call_path_join filePathToken;;
  existence_check options sourcePath;;
  ret (yamlFileLoader options sourcePath).

End WithPlatform.
End LoaderV1.

(** *** src/unnamed/part_000 *)
Module LoaderV2.
Section WithPlatform.
Context `{Platform}.

Definition yamlFileLoader (options : Options) (sourcePath : string) : Loader :=
  existence_check options sourcePath;;
  try_catch
    (fstat <- stat sourcePath;;
     if isFile fstat then
       yamlContent <- readFile sourcePath;;
       lift (yaml_load yamlContent)
     else
       let msg := not_a_file_message sourcePath in
       call_logger (logger options) (PlainValue (JObj [("msg", JStr msg)])) msg;;
       throw_if (truthy (throwOnError options)) (new_Error msg);;
       ret empty_object)
    (catch_handler options sourcePath).

Definition yamlLoader (options : Options) (filePathToken : list string)
  : M Loader :=
  sourcePath <- call_path_join filePathToken;;
  ret (yamlFileLoader options sourcePath).

End WithPlatform.
End LoaderV2.

(** ** A concrete platform for examples *)

(** A stand-in for js-yaml on three documents: the document of the
    repository's test file (in flow style), the empty document, for which
    js-yaml gives [undefined], and a scalar; any other text is refused the
    way js-yaml refuses malformed text, by a [YAMLException]. *)
Definition test_yaml : string := "{ foo: { ciao: mondo } }".
Definition test_document : JsValue := JObj [("foo", JObj [("ciao", JStr "mondo")])].

Definition table_yaml_load (text : string) : Completion JsValue :=
  if String.eqb text test_yaml then Normal test_document
  else if String.eqb text EmptyString then Normal JUndefined
  else if String.eqb text "42" then Normal (JNum 42)
  else Abrupt (ErrorInstance (mkError "YAMLException" "unexpected end of the stream within a flow collection")).

Definition posix_platform : Platform := mkPlatform Posix.join table_yaml_load.



Definition quiet (fs : FS) : World := mkWorld fs [] [].

Definition opts (throws : bool) : Options := mkOptions (Some throws) None.

(** The two revisions side by side. *)
Inductive Revision : Type := Rev1 | Rev2.

Definition factory `{Platform} (r : Revision)
  : Options → list string → M Loader :=
  match r with
  | Rev1 => LoaderV1.yamlLoader
  | Rev2 => LoaderV2.yamlLoader
  end.

Definition invocation `{Platform} (r : Revision) : Options → string → Loader :=
  match r with
  | Rev1 => LoaderV1.yamlFileLoader
  | Rev2 => LoaderV2.yamlFileLoader
  end.

(** ** What an invocation sees of a changing filesystem *)

(** The world once the other processes have taken their next turn. *)
Definition turn (w : World) : World := snd (interleave w).

(** The filesystem as [stat] finds it, and as [readFile] finds it. *)
Definition fs_at_stat (w : World) : FS := world_fs (turn w).
Definition fs_at_read (w : World) : FS := world_fs (turn (turn w)).

(** The events of a run from [w] to [w']. *)
Definition new_events (w w' : World) : list Event :=
  drop (length (world_trace w)) (world_trace w').

(** The filesystem after the given changes, first one first. *)
Definition apply_changes (changes : list (FS → FS)) (fs : FS) : FS :=
  foldl (λ fs change, change fs) fs changes.

(** The three kinds of failure after the existence check: [stat] throws, or
    it finds a regular file and [readFile] throws, or the text is read and
    the parser throws. *)
Definition io_or_parse_failure `{Platform} (p : string) (w : World)
    (err : JsThrown) : Prop :=
  stat_in (fs_at_stat w) p = Abrupt err
  ∨ ∃ s, stat_in (fs_at_stat w) p = Normal s ∧ isFile s = true ∧
      (read_in (fs_at_read w) p = Abrupt err
       ∨ ∃ text, read_in (fs_at_read w) p = Normal text
                 ∧ yaml_load text = Abrupt err).

(** An invocation gets past the existence check when the path exists or
    errors are not thrown; the first revision has no check at invocation. *)
Definition passes_existence_check (r : Revision) (options : Options)
    (p : string) (w : World) : Prop :=
  match r with
  | Rev1 => True
  | Rev2 => exists_in (world_fs w) p = true ∨ truthy (throwOnError options) = false
  end.

(** The events an invocation over [p] may produce: accesses to [p] and calls
    of the logger with a message that mentions [p]. *)
Definition mentions (p message : string) : Prop :=
  ∃ before after, message = before +:+ p +:+ after.

Definition invocation_event (p : string) (ev : Event) : Prop :=
  fs_access ev = Some p
  ∨ ∃ err message, logger_call ev = Some (err, message) ∧ mentions p message.

(** [tame P m]: from a filesystem and the pending changes of the other
    processes, [m] ends the same way whatever happened before; it only adds
    events, all of them in [P]; and the filesystem it leaves is the one it
    found, changed by the other processes' turns alone. *)
Definition tame {A} (P : Event → Prop) (m : M A) : Prop :=
  ∀ fs pend, ∃ c evs k,
    Forall P evs ∧
    ∀ tr, m (mkWorld fs tr pend) =
            (c, mkWorld (apply_changes (take k pend) fs) (tr ++ evs) (drop k pend)).

(** The world of the examples: the test directory of the repository. *)
Definition test_fs : FS :=
  {[ "/app" := directory;
     "/app/test.yaml" := file test_yaml;
     "/app/empty.yaml" := file EmptyString;
     "/app/broken.yaml" := file "foo: [";
     "/app/secret.yaml" := locked_file "/app/secret.yaml" ]}.

(** ** The documented copy of the loader *)

(** *** src/src/__test__/yaml-loader.test.ts, lines 239 to 299

    The copy of the loader that follows the tests in that file: the second
    revision with a [return {}] closing the existence check. *)
Module LoaderV3.
Section WithPlatform.
Context `{Platform}.

Definition yamlFileLoader (options : Options) (sourcePath : string) : Loader :=
  found <- existsSync sourcePath;;
  if negb found then
    call_logger (logger options) not_exist_marker (not_found_message sourcePath);;
    throw_if (truthy (throwOnError options)) (new_Error (not_found_message sourcePath));;
    ret empty_object
  else
    try_catch
      (fstat <- stat sourcePath;;
       if isFile fstat then
         yamlContent <- readFile sourcePath;;
         lift (yaml_load yamlContent)
       else
         let msg := not_a_file_message sourcePath in
         call_logger (logger options) (PlainValue (JObj [("msg", JStr msg)])) msg;;
         throw_if (truthy (throwOnError options)) (new_Error msg);;
         ret empty_object)
      (catch_handler options sourcePath).

Definition yamlLoader (options : Options) (filePathToken : list string)
  : M Loader :=
  sourcePath <- call_path_join filePathToken;;
  ret (yamlFileLoader options sourcePath).

End WithPlatform.
End LoaderV3.

(** ** More observations of a run *)

(** The accesses to the filesystem in a trace, with their kind. *)
Definition fs_operation (ev : Event) : option Event :=
  match ev with
  | EvExistsSync _ | EvStat _ | EvReadFile _ => Some ev
  | _ => None
  end.

Definition fs_operations (evs : list Event) : list Event := omap fs_operation evs.

(** What [console.log] printed, as [(message, err)], and the calls of the
    caller's callback, as [(id, err, message)]. *)
Definition console_line (ev : Event) : option (string * JsThrown) :=
  match ev with
  | EvConsoleLog message err => Some (message, err)
  | _ => None
  end.

Definition console_output (evs : list Event) : list (string * JsThrown) :=
  omap console_line evs.

Definition callback_call (ev : Event) : option (string * JsThrown * string) :=
  match ev with
  | EvCallback id err message => Some (id, err, message)
  | _ => None
  end.

Definition callback_calls (evs : list Event) : list (string * JsThrown * string) :=
  omap callback_call evs.

(** An invocation that meets no error: the path exists at the check (second
    revision), [stat] finds a regular file, the read gives [text] and the
    parser gives [v]. *)
Definition clean_read `{Platform} (r : Revision) (p : string) (w : World)
    (v : JsValue) : Prop :=
  match r with Rev1 => True | Rev2 => exists_in (world_fs w) p = true end
  ∧ ∃ s text,
      stat_in (fs_at_stat w) p = Normal s ∧ isFile s = true
      ∧ read_in (fs_at_read w) p = Normal text
      ∧ yaml_load text = Normal v.


(** ** The loaders over any environment *)

(** Everything the loader calls, as the caller's machine provides it:
    [existsSync], which answers and never throws; [stat] and [readFile],
    which may fail with any system error; the parser; and the logger, the
    caller's own function, which may do and throw anything. *)
Record Env : Type := mkEnv {
  env_existsSync : string → World → bool * World;
  env_stat : string → M Stats;
  env_readFile : string → M string;
  env_load : string → M JsValue;
  env_logger : JsThrown → string → M unit
}.

Definition env_exists (env : Env) (path : string) : M bool :=
  λ w, let (found, w') := env_existsSync env path w in (Normal found, w').

Module AnyEnv.

(** The existence check and the handler, as above, over [env]. *)
Definition existence_check (env : Env) (throwOnError : option bool)
    (sourcePath : string) : M unit :=
  found <- env_exists env sourcePath;;
  if negb found then
    env_logger env not_exist_marker (sourcePath +:+ " 404");;
    throw_if (truthy throwOnError) (new_Error (sourcePath +:+ " 404"))
  else ret tt.

Definition catch_handler (env : Env) (throwOnError : option bool)
    (sourcePath : string) (err : JsThrown) : M JsValue :=
  let msg :=
    "FILE DELETED OR A DIRECTORY-> " +:+ sourcePath +:+ " 404: "
      +:+ match err with
          | ErrorInstance e => err_message e
          | PlainValue _ => EmptyString
          end in
  env_logger env err msg;;
  throw_if (truthy throwOnError) (new_Error msg);;
  ret empty_object.

(** src/src/yaml-loader.ts *)
Module LoaderV1.

Definition yamlFileLoader (env : Env) (throwOnError : option bool)
    (sourcePath : string) : Loader :=
  try_catch
    (fstat <- env_stat env sourcePath;;
     if isFile fstat then
       yamlContent <- env_readFile env sourcePath;;
       env_load env yamlContent
     else throw (new_Error ("Source " +:+ sourcePath +:+ " is not a file")))
    (catch_handler env throwOnError sourcePath).

Definition yamlLoader `{Platform} (env : Env) (throwOnError : option bool)
    (filePathToken : list string) : M Loader :=
  sourcePath <- call_path_join filePathToken;;
  existence_check env throwOnError sourcePath;;
  ret (yamlFileLoader env throwOnError sourcePath).

End LoaderV1.

(** src/unnamed/part_000 *)
Module LoaderV2.

Definition yamlFileLoader (env : Env) (throwOnError : option bool)
    (sourcePath : string) : Loader :=
  existence_check env throwOnError sourcePath;;
  try_catch
    (fstat <- env_stat env sourcePath;;
     if isFile fstat then
       yamlContent <- env_readFile env sourcePath;;
       env_load env yamlContent
     else
       let msg := "Source " +:+ sourcePath +:+ " is not a file" in
       env_logger env (PlainValue (JObj [("msg", JStr msg)])) msg;;
       throw_if (truthy throwOnError) (new_Error msg);;
       ret empty_object)
    (catch_handler env throwOnError sourcePath).

End LoaderV2.

(** src/src/__test__/yaml-loader.test.ts, lines 256 to 298 *)
Module LoaderV3.

Definition yamlFileLoader (env : Env) (throwOnError : option bool)
    (sourcePath : string) : Loader :=
  found <- env_exists env sourcePath;;
  if negb found then
    env_logger env not_exist_marker (sourcePath +:+ " 404");;
    throw_if (truthy throwOnError) (new_Error (sourcePath +:+ " 404"));;
    ret empty_object
  else
    try_catch
      (fstat <- env_stat env sourcePath;;
       if isFile fstat then
         yamlContent <- env_readFile env sourcePath;;
         env_load env yamlContent
       else
         let msg := "Source " +:+ sourcePath +:+ " is not a file" in
         env_logger env (PlainValue (JObj [("msg", JStr msg)])) msg;;
         throw_if (truthy throwOnError) (new_Error msg);;
         ret empty_object)
      (catch_handler env throwOnError sourcePath).

End LoaderV3.

Definition invocation (r : Revision) : Env → option bool → string → Loader :=
  match r with
  | Rev1 => LoaderV1.yamlFileLoader
  | Rev2 => LoaderV2.yamlFileLoader
  end.

End AnyEnv.

(** The environment of the model above: the filesystem of the world, the
    parser of the platform, and a logger that is recorded and returns. *)
Definition model_env `{Platform} (logger : option string) : Env :=
  mkEnv
    (λ path w,
       (exists_in (world_fs w) path,
        mkWorld (world_fs w) (world_trace w ++ [EvExistsSync path])
          (world_pending w)))
    stat readFile (λ text, lift (yaml_load text)) (call_logger logger).

(** The logger always returns; the logger threw [e] at some call. *)
Definition logger_returns (env : Env) : Prop :=
  ∀ err message w, ∃ w', env_logger env err message w = (Normal tt, w').

Definition thrown_by_logger (env : Env) (e : JsThrown) : Prop :=
  ∃ err message w, fst (env_logger env err message w) = Abrupt e.

(** From world [w0], [stat], [readFile] or the parser throws [err] inside
    the [try] block and leaves world [w']. *)
Definition try_fails (env : Env) (p : string) (w0 : World) (err : JsThrown)
    (w' : World) : Prop :=
  env_stat env p w0 = (Abrupt err, w')
  ∨ ∃ s w1, env_stat env p w0 = (Normal s, w1) ∧ isFile s = true ∧
      (env_readFile env p w1 = (Abrupt err, w')
       ∨ ∃ text w2, env_readFile env p w1 = (Normal text, w2)
                    ∧ env_load env text w2 = (Abrupt err, w')).

(** The invocation started in [w] enters the [try] block in [w0]: at once in
    the first revision, after an existence check that did not throw in the
    second. *)
Definition enters_try (r : Revision) (env : Env) (throwOnError : option bool)
    (p : string) (w w0 : World) : Prop :=
  match r with
  | Rev1 => w0 = w
  | Rev2 => AnyEnv.existence_check env throwOnError p w = (Normal tt, w0)
  end.

(** Two environments for examples: a disk on which [stat] is refused, with
    a logger that returns; and the world of the model with a logger that
    throws. *)
Definition refusing_disk_env : Env :=
  mkEnv (λ path w, (true, w))
        (λ path, throw (EACCES "stat" path))
        (λ path, throw (EACCES "open" path))
        (λ text, ret JNull)
        (λ err message, emit (EvCallback "log" err message)).

Definition throwing_logger_env `{Platform} : Env :=
  mkEnv (env_existsSync (model_env None)) stat readFile
        (λ text, lift (yaml_load text))
        (λ err message,
           emit (EvCallback "log" err message);;
           throw (PlainValue (JStr "logger down"))).

(** * Properties *)

(** ** Running the monad *)

Ltac run :=
  unfold factory, invocation in *;
  unfold LoaderV1.yamlLoader, LoaderV1.yamlFileLoader, LoaderV2.yamlLoader,
    LoaderV2.yamlFileLoader, existence_check, catch_handler, call_path_join,
    call_logger, existsSync, stat, readFile, throw_if, try_catch, lift, bind,
    ret, throw, emit, observe, interleave, turn, fs_at_stat, fs_at_read in *;
  simpl in *.

Lemma factory_returns `{Platform} r options tokens w0 loader w1 :
  factory r options tokens w0 = (Normal loader, w1) →
  loader = invocation r options (path_join tokens).
Proof.
  destruct r; run; intros; repeat case_match; simplify_eq/=; try done. 
Qed.

(** Rewriting with what is known of the filesystem and of the parser. *)
Ltac known :=
  repeat (simpl;
          match goal with
          | H : ?x = _ |- context [?x] => rewrite H
          end);
  simpl.

Ltac same_world := rewrite <- ?app_assoc; reflexivity.

Section Invocation.
Context `{Platform}.

(** An existing, readable regular file is read and parsed, and nothing is
    logged. *)
Lemma regular_file_resolves r options p w e text v :
  world_pending w = [] →
  world_fs w !! p = Some e →
  entry_kind e = RegularFile →
  entry_read e = Normal text →
  yaml_load text = Normal v →
  invocation r options p w =
    (Normal v,
     mkWorld (world_fs w)
       (world_trace w ++
          match r with Rev1 => [] | Rev2 => [EvExistsSync p] end ++
          [EvStat p; EvReadFile p])
       []).
Proof.
  intros Hq Hp Hk Hr Hy. destruct w as [fs tr pend]; simpl in *; subst pend.
  destruct r; run; unfold exists_in, stat_in, read_in, isFile; known;
    same_world.
Qed.

(** A missing path, second revision: the check logs, then either throws
    or lets [stat] fail into the handler. *)
Lemma missing_path_rev2 options p w :
  world_pending w = [] →
  world_fs w !! p = None →
  LoaderV2.yamlFileLoader options p w =
    if truthy (throwOnError options) then
      (Abrupt (new_Error (not_found_message p)),
       mkWorld (world_fs w)
         (world_trace w ++
            [EvExistsSync p;
             logger_event (logger options) not_exist_marker (not_found_message p)])
         [])
    else
      (Normal empty_object,
       mkWorld (world_fs w)
         (world_trace w ++
            [EvExistsSync p;
             logger_event (logger options) not_exist_marker (not_found_message p);
             EvStat p;
             logger_event (logger options) (ENOENT "stat" p)
               (generic_message p (ENOENT "stat" p))])
         []).
Proof.
  intros Hq Hp. destruct w as [fs tr pend]; simpl in *; subst pend.
  run; unfold exists_in, stat_in; known.
  destruct (truthy (throwOnError options)); known; same_world.
Qed.

(** A missing path, first revision: [stat] fails into the handler. *)
Lemma missing_path_rev1 options p w :
  world_pending w = [] →
  world_fs w !! p = None →
  LoaderV1.yamlFileLoader options p w =
    (if truthy (throwOnError options)
     then Abrupt (new_Error (generic_message p (ENOENT "stat" p)))
     else Normal empty_object,
     mkWorld (world_fs w)
       (world_trace w ++
          [EvStat p;
           logger_event (logger options) (ENOENT "stat" p)
             (generic_message p (ENOENT "stat" p))])
       []).
Proof.
  intros Hq Hp. destruct w as [fs tr pend]; simpl in *; subst pend.
  run; unfold stat_in; known.
  destruct (truthy (throwOnError options)); known; same_world.
Qed.

Lemma not_regular_isFile e :
  entry_kind e ≠ RegularFile → isFile (mkStats (entry_kind e)) = false.
Proof. unfold isFile; simpl. by destruct (entry_kind e). Qed.

(** A directory (or any entry that is not a regular file), second
    revision. *)
Lemma not_a_file_rev2 options p w e :
  world_pending w = [] →
  world_fs w !! p = Some e →
  entry_kind e ≠ RegularFile →
  LoaderV2.yamlFileLoader options p w =
    (if truthy (throwOnError options)
     then Abrupt (new_Error
                    (generic_message p (new_Error (not_a_file_message p))))
     else Normal empty_object,
     mkWorld (world_fs w)
       (world_trace w ++
          [EvExistsSync p; EvStat p;
           logger_event (logger options)
             (PlainValue (JObj [("msg", JStr (not_a_file_message p))]))
             (not_a_file_message p)] ++
          (if truthy (throwOnError options)
           then [logger_event (logger options)
                   (new_Error (not_a_file_message p))
                   (generic_message p (new_Error (not_a_file_message p)))]
           else []))
       []).
Proof.
  intros Hq Hp Hk%not_regular_isFile. destruct w as [fs tr pend]; simpl in *; subst pend.
  run; unfold exists_in, stat_in; known.
  destruct (truthy (throwOnError options)); known; same_world.
Qed.

(** The same, first revision: the throw inside [try] is what reaches the
    handler. *)
Lemma not_a_file_rev1 options p w e :
  world_pending w = [] →
  world_fs w !! p = Some e →
  entry_kind e ≠ RegularFile →
  LoaderV1.yamlFileLoader options p w =
    (if truthy (throwOnError options)
     then Abrupt (new_Error
                    (generic_message p (new_Error (not_a_file_message p))))
     else Normal empty_object,
     mkWorld (world_fs w)
       (world_trace w ++
          [EvStat p;
           logger_event (logger options)
             (new_Error (not_a_file_message p))
             (generic_message p (new_Error (not_a_file_message p)))])
       []).
Proof.
  intros Hq Hp Hk%not_regular_isFile. destruct w as [fs tr pend]; simpl in *; subst pend.
  run; unfold stat_in; known.
  destruct (truthy (throwOnError options)); known; same_world.
Qed.

(** The factory of the second revision joins the path and returns. *)
Lemma factory_rev2 options tokens w :
  LoaderV2.yamlLoader options tokens w =
    (Normal (LoaderV2.yamlFileLoader options (path_join tokens)),
     mkWorld (world_fs w) (world_trace w ++ [EvPathJoin tokens])
       (world_pending w)).
Proof. reflexivity. Qed.

(** The factory of the first revision joins the path and checks that it
    exists. *)
Lemma factory_rev1 options tokens w :
  LoaderV1.yamlLoader options tokens w =
    let p := path_join tokens in
    if exists_in (world_fs w) p then
      (Normal (LoaderV1.yamlFileLoader options p),
       mkWorld (world_fs w)
         (world_trace w ++ [EvPathJoin tokens; EvExistsSync p])
         (world_pending w))
    else
      (if truthy (throwOnError options)
       then Abrupt (new_Error (not_found_message p))
       else Normal (LoaderV1.yamlFileLoader options p),
       mkWorld (world_fs w)
         (world_trace w ++
            [EvPathJoin tokens; EvExistsSync p;
             logger_event (logger options) not_exist_marker (not_found_message p)])
         (world_pending w)).
Proof.
  destruct w as [fs tr pend]. run.
  destruct (exists_in fs (path_join tokens)); simpl; [same_world|].
  destruct (truthy (throwOnError options)); simpl; same_world.
Qed.

End Invocation.

(** ** Programs that only read and only append to the trace *)

Lemma apply_changes_split (k1 k2 : nat) (pend : list (FS → FS)) (fs : FS) :
  apply_changes (take k2 (drop k1 pend)) (apply_changes (take k1 pend) fs) =
  apply_changes (take (k1 + k2) pend) fs.
Proof.
  revert pend fs. induction k1 as [|k1 IH]; intros pend fs; [done|].
  destruct pend as [|change pend]; simpl.
  - by rewrite take_nil.
  - apply IH.
Qed.

Section Tame.
Context {P : Event → Prop}.

Lemma tame_ret {A} (a : A) : tame P (ret a).
Proof.
  intros fs pend. exists (Normal a), [], 0. split; [constructor|].
  intros tr. unfold ret. by rewrite app_nil_r.
Qed.

Lemma tame_throw {A} (e : JsThrown) : tame P (@throw A e).
Proof.
  intros fs pend. exists (Abrupt e), [], 0. split; [constructor|].
  intros tr. unfold throw. by rewrite app_nil_r.
Qed.

Lemma tame_lift {A} (c : Completion A) : tame P (lift c).
Proof.
  intros fs pend. exists c, [], 0. split; [constructor|].
  intros tr. unfold lift. by rewrite app_nil_r.
Qed.

Lemma tame_observe {A} (read : FS → Completion A) : tame P (observe read).
Proof.
  intros fs pend. exists (read fs), [], 0. split; [constructor|].
  intros tr. unfold observe. simpl. by rewrite app_nil_r.
Qed.

Lemma tame_emit (ev : Event) : P ev → tame P (emit ev).
Proof.
  intros Hev fs pend. exists (Normal tt), [ev], 0. split; [by repeat constructor|].
  intros tr. reflexivity.
Qed.

Lemma tame_interleave : tame P interleave.
Proof.
  intros fs [|change rest].
  - exists (Normal tt), [], 0. split; [constructor|].
    intros tr. unfold interleave. simpl. by rewrite app_nil_r.
  - exists (Normal tt), [], 1. split; [constructor|].
    intros tr. unfold interleave. simpl. by rewrite app_nil_r, drop_0.
Qed.

Lemma tame_bind {A B} (m : M A) (k : A → M B) :
  tame P m → (∀ a, tame P (k a)) → tame P (bind m k).
Proof.
  intros Hm Hk fs pend.
  destruct (Hm fs pend) as (c1 & evs1 & k1 & HP1 & Hrun1).
  destruct c1 as [a|e].
  - destruct (Hk a (apply_changes (take k1 pend) fs) (drop k1 pend))
      as (c2 & evs2 & k2 & HP2 & Hrun2).
    exists c2, (evs1 ++ evs2)%list, (k1 + k2). split; [by apply Forall_app|].
    intros tr. unfold bind. rewrite Hrun1, Hrun2.
    by rewrite apply_changes_split, drop_drop, app_assoc.
  - exists (Abrupt e), evs1, k1. split; [done|].
    intros tr. unfold bind. by rewrite Hrun1.
Qed.

Lemma tame_try_catch {A} (body : M A) (handler : JsThrown → M A) :
  tame P body → (∀ e, tame P (handler e)) → tame P (try_catch body handler).
Proof.
  intros Hm Hk fs pend.
  destruct (Hm fs pend) as (c1 & evs1 & k1 & HP1 & Hrun1).
  destruct c1 as [a|e].
  - exists (Normal a), evs1, k1. split; [done|].
    intros tr. unfold try_catch. by rewrite Hrun1.
  - destruct (Hk e (apply_changes (take k1 pend) fs) (drop k1 pend))
      as (c2 & evs2 & k2 & HP2 & Hrun2).
    exists c2, (evs1 ++ evs2)%list, (k1 + k2). split; [by apply Forall_app|].
    intros tr. unfold try_catch. rewrite Hrun1, Hrun2.
    by rewrite apply_changes_split, drop_drop, app_assoc.
Qed.

Lemma tame_throw_if (c : bool) (e : JsThrown) : tame P (throw_if c e).
Proof. destruct c; [apply tame_throw | apply tame_ret]. Qed.

End Tame.

Lemma mentions_not_found p : mentions p (not_found_message p).
Proof. exists EmptyString, " 404". reflexivity. Qed.

Lemma mentions_not_a_file p : mentions p (not_a_file_message p).
Proof.
  exists "Source ", " is not a file". unfold not_a_file_message.
  reflexivity.
Qed.

Lemma mentions_generic p err : mentions p (generic_message p err).
Proof.
  exists "FILE DELETED OR A DIRECTORY-> ", (" 404: " +:+ message_or_empty err).
  reflexivity.
Qed.

Lemma logger_call_event lg err message :
  logger_call (logger_event lg err message) = Some (err, message).
Proof. by destruct lg. Qed.

Lemma tame_call_logger p lg err message :
  mentions p message →
  tame (invocation_event p) (call_logger lg err message).
Proof.
  intros Hm. apply tame_emit. right. exists err, message.
  by rewrite logger_call_event.
Qed.

Ltac tame_step :=
  first
    [ apply tame_bind | apply tame_try_catch | apply tame_ret | apply tame_throw
    | apply tame_lift | apply tame_observe | apply tame_interleave
    | apply tame_throw_if
    | apply tame_call_logger;
      [ first [ apply mentions_not_found | apply mentions_not_a_file
              | apply mentions_generic ] ]
    | apply tame_emit; left; reflexivity
    | match goal with |- ∀ _, _ => intro end
    | match goal with |- tame _ (if ?b then _ else _) => destruct b end ].

Section TameLoaders.
Context `{Platform}.

Lemma tame_existence_check options p :
  tame (invocation_event p) (existence_check options p).
Proof. unfold existence_check, existsSync. repeat tame_step. Qed.

Lemma tame_catch_handler options p err :
  tame (invocation_event p) (catch_handler options p err).
Proof. unfold catch_handler. repeat tame_step. Qed.

(** Every invocation, of either revision, is tame. *)
Lemma tame_invocation r options p :
  tame (invocation_event p) (invocation r options p).
Proof.
  destruct r; simpl;
    unfold LoaderV1.yamlFileLoader, LoaderV2.yamlFileLoader, stat, readFile.
  - apply tame_try_catch; [|apply tame_catch_handler]. repeat tame_step.
  - apply tame_bind; [apply tame_existence_check|]. intros _.
    apply tame_try_catch; [|apply tame_catch_handler]. repeat tame_step.
Qed.

End TameLoaders.

(** ** The events of a run *)

Lemma new_events_app fs tr pend fs' evs pend' :
  new_events (mkWorld fs tr pend) (mkWorld fs' (tr ++ evs) pend') = evs.
Proof. unfold new_events; simpl. apply drop_app_length. Qed.

Ltac events :=
  unfold new_events; simpl; rewrite <- ?app_assoc; rewrite ?drop_app_length;
  simpl.

Lemma tame_new_events {A} (P : Event → Prop) (m : M A) w :
  tame P m → Forall P (new_events w (snd (m w))).
Proof.
  intros Hm. destruct w as [fs tr pend].
  destruct (Hm fs pend) as (c & evs & k & HP & Hrun).
  rewrite Hrun; simpl. by rewrite new_events_app.
Qed.

Lemma invocation_events_no_join p evs :
  Forall (invocation_event p) evs → path_join_calls evs = [].
Proof.
  induction 1 as [|ev evs Hev _ IH]; [done|].
  unfold path_join_calls in *.
  destruct Hev as [Hev|(err & msg & Hev & _)]; by destruct ev.
Qed.

Lemma invocation_events_paths p evs :
  Forall (invocation_event p) evs → Forall (λ q, q = p) (fs_accesses evs).
Proof.
  induction 1 as [|ev evs Hev _ IH]; [constructor|].
  unfold fs_accesses in *.
  destruct Hev as [Hev|(err & msg & Hev & _)];
    destruct ev; simplify_eq/=; try done; by constructor.
Qed.

Lemma invocation_events_messages p evs :
  Forall (invocation_event p) evs →
  Forall (λ call, mentions p call.2) (logger_calls evs).
Proof.
  induction 1 as [|ev evs Hev _ IH]; [constructor|].
  unfold logger_calls in *.
  destruct Hev as [Hev|(err & msg & Hev & Hm)];
    destruct ev; simplify_eq/=; try done; by constructor.
Qed.

(** * The claims *)

(** C1.  A loader built by the factory of either revision, invoked while its
    path designates a readable regular file whose text parses to a mapping,
    resolves with exactly that mapping and logs nothing, whatever
    [throwOnError] is. *)
Theorem C1_regular_yaml_file_is_parsed `{Platform}
    r options tokens w0 loader w1 w e text fields :
  factory r options tokens w0 = (Normal loader, w1) →
  world_pending w = [] →
  world_fs w !! path_join tokens = Some e →
  entry_kind e = RegularFile →
  entry_read e = Normal text →
  yaml_load text = Normal (JObj fields) →
  fst (loader w) = Normal (JObj fields)
  ∧ logger_calls (new_events w (snd (loader w))) = [].
Proof.
  intros ->%factory_returns Hq Hp Hk Hr Hy.
  rewrite (regular_file_resolves r options _ w e text (JObj fields)) by done.
  split; [done|]. destruct w as [fs tr pend]; simpl.
  rewrite new_events_app. by destruct r.
Qed.

Lemma C1_witness :
  fst (@LoaderV2.yamlFileLoader posix_platform (opts true) "/app/test.yaml"
         (quiet test_fs))
  = Normal (JObj [("foo", JObj [("ciao", JStr "mondo")])]).
Proof.
  refine (proj1 (@C1_regular_yaml_file_is_parsed posix_platform Rev2 (opts true)
            ["/app"; "test.yaml"] (quiet ∅) _ _ (quiet test_fs)
            (file test_yaml) test_yaml _ _ _ _ _ _ _));
    reflexivity.
Defined.

(** C2 fails on the first revision: with [throwOnError] set and the path
    missing, the factory itself checks the filesystem, logs and throws. *)
Lemma C2_counterexample :
  let run := @LoaderV1.yamlLoader posix_platform (opts true)
               ["/app"; "missing.yaml"] (quiet test_fs) in
  fst run = Abrupt (new_Error "/app/missing.yaml 404")
  ∧ fs_accesses (world_trace (snd run)) = ["/app/missing.yaml"].
Proof. split; reflexivity. Qed.

(** C2, amended.  No factory reads, stats or writes the file.  The factory of
    the second revision touches the filesystem not at all, logs nothing and
    always returns the loader.  The factory of the first revision checks once
    that the path exists; when it does not, it calls the logger with
    [<SourcePath> 404] and throws an error with that message if
    [throwOnError] is set; in every other case it returns the loader. *)
Theorem C2_factory_effects `{Platform} options tokens w :
  let p := path_join tokens in
  let run2 := LoaderV2.yamlLoader options tokens w in
  let run1 := LoaderV1.yamlLoader options tokens w in
  (fst run2 = Normal (LoaderV2.yamlFileLoader options p)
   ∧ fs_accesses (new_events w (snd run2)) = []
   ∧ logger_calls (new_events w (snd run2)) = []
   ∧ world_fs (snd run2) = world_fs w)
  ∧ (fst run1 =
       (if negb (exists_in (world_fs w) p) && truthy (throwOnError options)
        then Abrupt (new_Error (not_found_message p))
        else Normal (LoaderV1.yamlFileLoader options p))
     ∧ new_events w (snd run1) =
         [EvPathJoin tokens; EvExistsSync p] ++
         (if exists_in (world_fs w) p then []
          else [logger_event (logger options) not_exist_marker
                  (not_found_message p)])
     ∧ world_fs (snd run1) = world_fs w).
Proof.
  intros p run2 run1. subst run1 run2.
  rewrite factory_rev2, factory_rev1. fold p.
  destruct w as [fs tr pend]; simpl. split.
  - by rewrite new_events_app.
  - destruct (exists_in fs p); simpl; rewrite new_events_app; [done|].
    by destruct (truthy (throwOnError options)).
Qed.

(** C3 fails on the first revision: a loader built while the file existed
    and invoked after the file is removed fails, with [throwOnError] set,
    with the message of the generic handler and not with
    [<SourcePath> 404]. *)
Lemma C3_counterexample :
  match @LoaderV1.yamlLoader posix_platform (opts true) ["/app"; "test.yaml"]
          (quiet test_fs) with
  | (Normal loader, w1) =>
      let w2 := mkWorld (rmSync "/app/test.yaml" (world_fs w1)) (world_trace w1) [] in
      world_fs w2 !! "/app/test.yaml" = None
      ∧ fst (loader w2) =
          Abrupt (new_Error
                    "FILE DELETED OR A DIRECTORY-> /app/test.yaml 404: ENOENT: no such file or directory, stat '/app/test.yaml'")
      ∧ fst (loader w2) ≠ Abrupt (new_Error "/app/test.yaml 404")
  | _ => False
  end.
Proof. vm_compute. split; [done|]. split; [done|]. discriminate. Qed.

(** C3, amended.  On a path that does not exist during the invocation:
    the loader of the second revision logs [<SourcePath> 404] and then, with
    [throwOnError] set, fails with an error of that message; without it, it
    goes on to [stat], whose error the handler logs, and resolves with [{}].
    The loader of the first revision has no check of its own: [stat] fails,
    the handler logs the composed message once, and the invocation fails
    with an error of the composed message or resolves with [{}]. *)
Theorem C3_missing_path `{Platform} options p w :
  world_pending w = [] →
  world_fs w !! p = None →
  let run2 := LoaderV2.yamlFileLoader options p w in
  let run1 := LoaderV1.yamlFileLoader options p w in
  let not_found := logger_event (logger options) not_exist_marker (not_found_message p) in
  let stat_failed :=
    logger_event (logger options) (ENOENT "stat" p)
      (generic_message p (ENOENT "stat" p)) in
  (truthy (throwOnError options) = true →
     fst run2 = Abrupt (new_Error (not_found_message p))
     ∧ new_events w (snd run2) = [EvExistsSync p; not_found])
  ∧ (truthy (throwOnError options) = false →
     fst run2 = Normal empty_object
     ∧ new_events w (snd run2) = [EvExistsSync p; not_found; EvStat p; stat_failed])
  ∧ fst run1 =
      (if truthy (throwOnError options)
       then Abrupt (new_Error (generic_message p (ENOENT "stat" p)))
       else Normal empty_object)
  ∧ new_events w (snd run1) = [EvStat p; stat_failed].
Proof.
  intros Hq Hp run2 run1 not_found stat_failed. subst run1 run2.
  rewrite missing_path_rev2, missing_path_rev1 by done.
  destruct w as [fs tr pend]; simpl.
  destruct (truthy (throwOnError options)); simpl; rewrite !new_events_app;
    repeat split; intros; done.
Qed.

Lemma C3_witness :
  fst (@LoaderV2.yamlFileLoader posix_platform (opts true) "/app/missing.yaml"
         (quiet test_fs))
  = Abrupt (new_Error "/app/missing.yaml 404").
Proof.
  refine (proj1 (proj1 (@C3_missing_path posix_platform (opts true)
            "/app/missing.yaml" (quiet test_fs) _ _) _));
    reflexivity.
Defined.

(** C4 fails on the first revision: on a directory its logger never
    receives [Source <SourcePath> is not a file] as the message, and the
    error of the failure carries the composed message. *)
Lemma C4_counterexample :
  let run := @LoaderV1.yamlFileLoader posix_platform (opts true) "/app"
               (quiet test_fs) in
  logger_calls (world_trace (snd run)) =
    [(new_Error "Source /app is not a file",
      "FILE DELETED OR A DIRECTORY-> /app 404: Source /app is not a file")]
  ∧ fst run =
      Abrupt (new_Error
                "FILE DELETED OR A DIRECTORY-> /app 404: Source /app is not a file").
Proof. split; reflexivity. Qed.

(** C4, amended.  On a path that exists and is not a regular file:
    the loader of the second revision calls the logger with
    [Source <SourcePath> is not a file] right after [stat], and without
    [throwOnError] it resolves with [{}] and does nothing more.  The loader
    of the first revision throws inside [try]: its handler logs once, with
    the composed message, and the invocation fails with an error of the
    composed message or resolves with [{}]. *)
Theorem C4_not_a_file `{Platform} options p w e :
  world_pending w = [] →
  world_fs w !! p = Some e →
  entry_kind e ≠ RegularFile →
  let run2 := LoaderV2.yamlFileLoader options p w in
  let run1 := LoaderV1.yamlFileLoader options p w in
  let msg := not_a_file_message p in
  (∃ rest,
      new_events w (snd run2) =
        [EvExistsSync p; EvStat p;
         logger_event (logger options) (PlainValue (JObj [("msg", JStr msg)])) msg]
        ++ rest
      ∧ (truthy (throwOnError options) = false →
         rest = [] ∧ fst run2 = Normal empty_object))
  ∧ fst run1 =
      (if truthy (throwOnError options)
       then Abrupt (new_Error (generic_message p (new_Error msg)))
       else Normal empty_object)
  ∧ new_events w (snd run1) =
      [EvStat p;
       logger_event (logger options) (new_Error msg)
         (generic_message p (new_Error msg))].
Proof.
  intros Hq Hp Hk run2 run1 msg. subst run1 run2.
  rewrite (not_a_file_rev2 options p w e), (not_a_file_rev1 options p w e) by done.
  destruct w as [fs tr pend]; simpl. rewrite !new_events_app.
  split; [|done]. eexists; split; [reflexivity|].
  by intros ->.
Qed.

Lemma C4_witness :
  fst (@LoaderV1.yamlFileLoader posix_platform (opts false) "/app" (quiet test_fs))
  = Normal empty_object.
Proof.
  refine (proj1 (proj2 (@C4_not_a_file posix_platform (opts false) "/app"
            (quiet test_fs) directory _ _ _)));
    first [reflexivity | discriminate].
Defined.

(** The handler in the concrete model, for a failure of [stat],
    [readFile] or the parser. *)
Lemma generic_failure_in_the_model `{Platform} r options p w err :
  passes_existence_check r options p w →
  io_or_parse_failure p w err →
  let run := invocation r options p w in
  fst run =
    (if truthy (throwOnError options)
     then Abrupt (ErrorInstance (mkError "Error" (generic_message p err)))
     else Normal empty_object)
  ∧ last (new_events w (snd run)) =
      Some (logger_event (logger options) err (generic_message p err))
  ∧ last (logger_calls (new_events w (snd run))) =
      Some (err, generic_message p err).
Proof.
  intros Hpass Hfail run. subst run.
  assert (Hlog : ∀ evs,
    last evs = Some (logger_event (logger options) err (generic_message p err)) →
    last (logger_calls evs) = Some (err, generic_message p err)).
  { intros evs. induction evs as [|ev [|ev' evs] IH]; [done| |].
    - intros [= ->]. unfold logger_calls; simpl. by rewrite logger_call_event.
    - intros Hl. specialize (IH Hl). unfold logger_calls in *.
      change (omap logger_call (ev :: ev' :: evs))
        with (match logger_call ev with
              | Some c => c :: omap logger_call (ev' :: evs)
              | None => omap logger_call (ev' :: evs)
              end).
      destruct (logger_call ev); [|done].
      destruct (omap logger_call (ev' :: evs)); done. }
  cut (fst (invocation r options p w) =
         (if truthy (throwOnError options)
          then Abrupt (ErrorInstance (mkError "Error" (generic_message p err)))
          else Normal empty_object)
       ∧ last (new_events w (snd (invocation r options p w))) =
           Some (logger_event (logger options) err (generic_message p err))).
  { intros [? ?]; auto. }
  clear Hlog.
  destruct Hfail as [Hs|(s & Hs & Hf & [Hr|(text & Hr & Hy)])];
    destruct w as [fs tr [|c1 [|c2 rest]]];
    destruct r; try (destruct Hpass as [Hpass|Hpass]);
    run; unfold new_Error;
    known;
    destruct (truthy (throwOnError options)); try discriminate;
    known; events; try done;
    destruct (exists_in fs p); known; events; done.
Qed.

(** Over any environment: an error thrown by [stat], [readFile] or the
    parser inside [try] is handed to the handler, in the world the failed
    call left. *)
Lemma handler_reached r env flag p w w0 w1 err :
  enters_try r env flag p w w0 →
  try_fails env p w0 err w1 →
  AnyEnv.invocation r env flag p w = AnyEnv.catch_handler env flag p err w1.
Proof.
  intros Henter Hfail. destruct r; simpl in Henter.
  - subst w0.
    unfold AnyEnv.invocation, AnyEnv.LoaderV1.yamlFileLoader, try_catch, bind.
    destruct Hfail as [Hs|(s & w2 & Hs & Hf & [Hr|(text & w3 & Hr & Hy)])];
      rewrite Hs; rewrite ?Hf, ?Hr, ?Hy; reflexivity.
  - unfold AnyEnv.invocation, AnyEnv.LoaderV2.yamlFileLoader, try_catch.
    unfold bind at 1. rewrite Henter. unfold bind.
    destruct Hfail as [Hs|(s & w2 & Hs & Hf & [Hr|(text & w3 & Hr & Hy)])];
      rewrite Hs; rewrite ?Hf, ?Hr, ?Hy; reflexivity.
Qed.

(** C5.  In either revision, when [stat], [readFile] or the parser throws
    [err] after the existence check, the logger is called with [err] itself
    and the message
    [FILE DELETED OR A DIRECTORY-> <SourcePath> 404: <message>], where
    [<message>] is the message of [err] if [err] is an [Error] and the
    empty string otherwise; once the logger has returned, the invocation
    fails with a fresh [Error] of exactly that message when [throwOnError]
    is set, and resolves with [{}] otherwise.

    First in the concrete model, under any interleaving of other
    processes: the call of the logger is the last event of the invocation.
    Then over any environment, that is for any system error of [stat] or
    [readFile], any value thrown by the parser and any logger: the
    invocation is that one call of the logger followed by the throw or the
    return; should the logger throw, its own throw is what the caller
    gets. *)
Theorem C5_generic_failure `{Platform} r options p w err env flag w0 w1 :
  let original :=
    match err with
    | ErrorInstance e => err_message e
    | PlainValue _ => EmptyString
    end in
  let msg := "FILE DELETED OR A DIRECTORY-> " +:+ p +:+ " 404: " +:+ original in
  let failure := ErrorInstance (mkError "Error" msg) in
  (passes_existence_check r options p w →
   io_or_parse_failure p w err →
   let run := invocation r options p w in
   fst run =
     (if truthy (throwOnError options) then Abrupt failure else Normal (JObj []))
   ∧ last (new_events w (snd run)) = Some (logger_event (logger options) err msg)
   ∧ last (logger_calls (new_events w (snd run))) = Some (err, msg))
  ∧ (enters_try r env flag p w w0 →
     try_fails env p w0 err w1 →
     AnyEnv.invocation r env flag p w =
       match env_logger env err msg w1 with
       | (Normal _, w2) =>
           (if truthy flag then Abrupt failure else Normal (JObj []), w2)
       | (Abrupt thrown, w2) => (Abrupt thrown, w2)
       end).
Proof.
  intros original msg failure. split.
  - exact (generic_failure_in_the_model r options p w err).
  - intros Henter Hfail.
    rewrite (handler_reached r env flag p w w0 w1 err Henter Hfail).
    unfold AnyEnv.catch_handler, bind, throw_if. fold original. fold msg.
    destruct (env_logger env err msg w1) as [[[]|thrown] w2]; [|done].
    by destruct (truthy flag).
Qed.

Lemma C5_witness :
  fst (@LoaderV2.yamlFileLoader posix_platform (opts true) "/app/broken.yaml"
         (quiet test_fs))
  = Abrupt (ErrorInstance (mkError "Error"
      "FILE DELETED OR A DIRECTORY-> /app/broken.yaml 404: unexpected end of the stream within a flow collection"))
  ∧ AnyEnv.invocation Rev2 refusing_disk_env (Some true) "/etc/app.yaml" (quiet ∅)
    = (Abrupt (ErrorInstance (mkError "Error"
         "FILE DELETED OR A DIRECTORY-> /etc/app.yaml 404: EACCES: permission denied, stat '/etc/app.yaml'")),
       mkWorld ∅
         [EvCallback "log" (EACCES "stat" "/etc/app.yaml")
            "FILE DELETED OR A DIRECTORY-> /etc/app.yaml 404: EACCES: permission denied, stat '/etc/app.yaml'"]
         []).
Proof.
  split.
  - refine (proj1 (proj1 (@C5_generic_failure posix_platform Rev2 (opts true)
              "/app/broken.yaml" (quiet test_fs)
              (ErrorInstance (mkError "YAMLException"
                 "unexpected end of the stream within a flow collection"))
              refusing_disk_env None (quiet ∅) (quiet ∅)) _ _)).
    + left. reflexivity.
    + right. exists (mkStats RegularFile). split; [reflexivity|].
      split; [reflexivity|]. right. exists "foo: [". split; reflexivity.
  - exact (proj2 (@C5_generic_failure posix_platform Rev2 (opts true)
                    "/etc/app.yaml" (quiet ∅) (EACCES "stat" "/etc/app.yaml")
                    refusing_disk_env (Some true) (quiet ∅) (quiet ∅))
             eq_refl (or_introl eq_refl)).
Defined.

(** ** What tameness gives *)

Lemma tame_same_outcome {A} (P : Event → Prop) (m : M A) wa wb :
  tame P m →
  world_fs wa = world_fs wb →
  world_pending wa = world_pending wb →
  fst (m wa) = fst (m wb)
  ∧ new_events wa (snd (m wa)) = new_events wb (snd (m wb))
  ∧ world_fs (snd (m wa)) = world_fs (snd (m wb)).
Proof.
  intros Hm. destruct wa as [fs tra pend], wb as [fs' trb pend']; simpl.
  intros <- <-. destruct (Hm fs pend) as (c & evs & k & _ & Hrun).
  rewrite !Hrun; simpl. by rewrite !new_events_app.
Qed.

Lemma tame_quiet_again {A} (P : Event → Prop) (m : M A) w :
  tame P m →
  world_pending w = [] →
  fst (m (snd (m w))) = fst (m w)
  ∧ world_fs (snd (m w)) = world_fs w
  ∧ world_pending (snd (m w)) = [].
Proof.
  intros Hm. destruct w as [fs tr pend]; simpl. intros ->.
  destruct (Hm fs []) as (c & evs & k & _ & Hrun).
  rewrite take_nil, drop_nil in Hrun. simpl in Hrun.
  rewrite !Hrun; simpl. by rewrite Hrun.
Qed.

Lemma tame_read_only {A} (P : Event → Prop) (m : M A) w :
  tame P m →
  ∃ k, world_fs (snd (m w)) = apply_changes (take k (world_pending w)) (world_fs w)
       ∧ world_pending (snd (m w)) = drop k (world_pending w).
Proof.
  intros Hm. destruct w as [fs tr pend]; simpl.
  destruct (Hm fs pend) as (c & evs & k & _ & Hrun).
  exists k. by rewrite Hrun.
Qed.

(** An existing regular file whose read or whose parse throws. *)
Lemma regular_file_fails `{Platform} r options p w e err :
  world_pending w = [] →
  world_fs w !! p = Some e →
  entry_kind e = RegularFile →
  (entry_read e = Abrupt err
   ∨ ∃ text, entry_read e = Normal text ∧ yaml_load text = Abrupt err) →
  invocation r options p w =
    (if truthy (throwOnError options)
     then Abrupt (new_Error (generic_message p err))
     else Normal empty_object,
     mkWorld (world_fs w)
       (world_trace w ++
          match r with Rev1 => [] | Rev2 => [EvExistsSync p] end ++
          [EvStat p; EvReadFile p;
           logger_event (logger options) err (generic_message p err)])
       []).
Proof.
  intros Hq Hp Hk Hfail. destruct w as [fs tr pend]; simpl in *; subst pend.
  destruct Hfail as [Hr|(text & Hr & Hy)];
    destruct r; run; unfold exists_in, stat_in, read_in, isFile; known;
    destruct (truthy (throwOnError options)); known; same_world.
Qed.

(** Every message the logger gets from an invocation holds the path. *)
Lemma logger_messages_mention_path `{Platform} r options p w :
  Forall (λ call, mentions p call.2)
    (logger_calls (new_events w (snd (invocation r options p w)))).
Proof.
  apply invocation_events_messages, tame_new_events, tame_invocation.
Qed.

(** The race the handler is there for: the file is there at the check and
    gone when [stat] runs. *)
Example deleted_between_check_and_stat :
  let w := mkWorld test_fs [] [rmSync "/app/test.yaml"] in
  let run := @LoaderV2.yamlFileLoader posix_platform (opts false)
               "/app/test.yaml" w in
  fst run = Normal empty_object
  ∧ new_events w (snd run) =
      [EvExistsSync "/app/test.yaml"; EvStat "/app/test.yaml";
       EvConsoleLog
         (generic_message "/app/test.yaml" (ENOENT "stat" "/app/test.yaml"))
         (ENOENT "stat" "/app/test.yaml")]
  ∧ world_fs (snd run) = rmSync "/app/test.yaml" test_fs.
Proof. repeat split; reflexivity. Qed.

(** Where one error is met and the logger is called once: a missing path
    when the invocation stops at the check, an entry that is not a regular
    file when nothing is thrown, and a read or a parse that throws. *)
Lemma one_error_one_call `{Platform} r options p w :
  world_pending w = [] →
  let calls := logger_calls (new_events w (snd (invocation r options p w))) in
  (world_fs w !! p = None → r = Rev1 ∨ truthy (throwOnError options) = true →
     length calls = 1)
  ∧ (∀ e, world_fs w !! p = Some e → entry_kind e ≠ RegularFile →
       r = Rev1 ∨ truthy (throwOnError options) = false → length calls = 1)
  ∧ (∀ e err, world_fs w !! p = Some e → entry_kind e = RegularFile →
       (entry_read e = Abrupt err
        ∨ ∃ text, entry_read e = Normal text ∧ yaml_load text = Abrupt err) →
       length calls = 1).
Proof.
  intros Hq calls. subst calls. repeat split.
  - intros Hp [->|Hthr]; [|destruct r]; simpl;
      rewrite ?missing_path_rev1, ?missing_path_rev2 by done;
      rewrite ?Hthr; destruct w as [fs tr pend]; simpl;
      rewrite new_events_app; unfold logger_calls; simpl;
      by rewrite ?logger_call_event.
  - intros e Hp Hk [->|Hthr]; [|destruct r]; simpl;
      rewrite ?(not_a_file_rev1 options p w e), ?(not_a_file_rev2 options p w e) by done;
      rewrite ?Hthr; destruct w as [fs tr pend]; simpl;
      rewrite new_events_app; unfold logger_calls; simpl;
      by rewrite ?logger_call_event.
  - intros e err Hp Hk Hfail.
    rewrite (regular_file_fails r options p w e err) by done.
    destruct w as [fs tr pend]; simpl.
    rewrite new_events_app; unfold logger_calls; destruct r; simpl;
      by rewrite ?logger_call_event.
Qed.

(** C6, at the input where the second revision breaks it.  On a path that
    is not a regular file, with [throwOnError] set, the invocation meets one
    error and calls the logger twice: once with
    [Source <SourcePath> is not a file], and once more from the handler that
    catches the error thrown inside [try]; the error of the failure carries
    the handler's message. *)
Theorem C6_directory_logged_twice `{Platform} options p w e :
  world_pending w = [] →
  world_fs w !! p = Some e →
  entry_kind e ≠ RegularFile →
  truthy (throwOnError options) = true →
  let run := LoaderV2.yamlFileLoader options p w in
  let msg := not_a_file_message p in
  logger_calls (new_events w (snd run)) =
    [(PlainValue (JObj [("msg", JStr msg)]), msg);
     (new_Error msg, generic_message p (new_Error msg))]
  ∧ fst run = Abrupt (new_Error (generic_message p (new_Error msg))).
Proof.
  intros Hq Hp Hk Hthr run msg. subst run.
  rewrite (not_a_file_rev2 options p w e) by done. rewrite Hthr.
  destruct w as [fs tr pend]; simpl. rewrite new_events_app.
  unfold logger_calls; simpl. by rewrite !logger_call_event.
Qed.

Lemma C6_witness :
  length (logger_calls (new_events (quiet test_fs)
            (snd (@LoaderV2.yamlFileLoader posix_platform (opts true) "/app"
                    (quiet test_fs))))) = 2.
Proof.
  rewrite (proj1 (@C6_directory_logged_twice posix_platform (opts true) "/app"
             (quiet test_fs) directory eq_refl eq_refl
             ltac:(discriminate) eq_refl)).
  reflexivity.
Defined.

(** C7.  The factory of either revision joins the segments once, when it is
    called, and the loader it returns is the loader over that one path: no
    invocation joins again, and every access of every invocation to the
    filesystem is to that path.  On a POSIX platform the join of [/a], [b]
    and [config.yaml] is [/a/b/config.yaml], and separators in excess are
    dropped. *)
Theorem C7_source_path_joined_once `{Platform} r options tokens w0 loader w1 :
  factory r options tokens w0 = (Normal loader, w1) →
  path_join_calls (new_events w0 w1) = [tokens]
  ∧ loader = invocation r options (path_join tokens)
  ∧ (∀ w, path_join_calls (new_events w (snd (loader w))) = []
          ∧ Forall (λ q, q = path_join tokens)
              (fs_accesses (new_events w (snd (loader w)))))
  ∧ @path_join posix_platform ["/a"; "b"; "config.yaml"] = "/a/b/config.yaml"
  ∧ @path_join posix_platform ["/a/"; "/b//"; "config.yaml"] = "/a/b/config.yaml".
Proof.
  intros Hf. pose proof (factory_returns _ _ _ _ _ _ Hf) as ->.
  split; [|split; [done|split; [|done]]].
  - destruct r; simpl in Hf.
    + rewrite factory_rev1 in Hf. simpl in Hf. destruct w0 as [fs tr pend].
      simpl in Hf.
      destruct (exists_in fs (path_join tokens));
        [|destruct (truthy (throwOnError options))]; simplify_eq/=;
        rewrite new_events_app; by destruct (logger options).
    + rewrite factory_rev2 in Hf. destruct w0 as [fs tr pend].
      simplify_eq/=. by rewrite new_events_app.
  - intros w.
    pose proof (tame_new_events _ _ w (tame_invocation r options (path_join tokens))).
    split; [by eapply invocation_events_no_join
           |by apply invocation_events_paths].
Qed.

Lemma C7_witness :
  Forall (λ q, q = "/a/b/config.yaml")
    (fs_accesses (new_events (quiet test_fs)
       (snd (@LoaderV2.yamlFileLoader posix_platform (opts false)
               "/a/b/config.yaml" (quiet test_fs))))).
Proof.
  exact (proj2 (proj1 (proj2 (proj2
    (@C7_source_path_joined_once posix_platform Rev2 (opts false)
       ["/a"; "b"; "config.yaml"] (quiet ∅) _ _ eq_refl))) (quiet test_fs))).
Defined.

(** C8.  What an invocation of a loader of either revision gives depends on
    the options and path fixed by the factory, on the filesystem and on what
    other processes do to it meanwhile, and not on what happened before: two
    worlds that differ only in their history give the same outcome and the
    same events.  In particular an invocation that follows another, with
    the filesystem left alone, gives the same outcome. *)
Theorem C8_no_memoization `{Platform} r options tokens w0 loader w1 :
  factory r options tokens w0 = (Normal loader, w1) →
  (∀ wa wb,
      world_fs wa = world_fs wb →
      world_pending wa = world_pending wb →
      fst (loader wa) = fst (loader wb)
      ∧ new_events wa (snd (loader wa)) = new_events wb (snd (loader wb)))
  ∧ (∀ w, world_pending w = [] → fst (loader (snd (loader w))) = fst (loader w)).
Proof.
  intros ->%factory_returns.
  pose proof (tame_invocation r options (path_join tokens)) as Ht. split.
  - intros wa wb Hfs Hpend.
    destruct (tame_same_outcome _ _ wa wb Ht Hfs Hpend) as (? & ? & _). done.
  - intros w Hq. by destruct (tame_quiet_again _ _ w Ht Hq) as (? & _).
Qed.

Lemma C8_witness :
  let loader := @LoaderV2.yamlFileLoader posix_platform (opts true)
                  "/app/test.yaml" in
  fst (loader (snd (loader (quiet test_fs)))) = fst (loader (quiet test_fs)).
Proof.
  exact (proj2 (@C8_no_memoization posix_platform Rev2 (opts true)
                  ["/app"; "test.yaml"] (quiet ∅) _ _ eq_refl)
           (quiet test_fs) eq_refl).
Defined.

(** C9.  An invocation of either revision writes nothing: the filesystem it
    leaves is the one it found, changed only by the turns other processes
    took meanwhile, hence the very same one when they took none; this holds
    however the invocation ends.  All it does besides is read its path and
    call the logger. *)
Theorem C9_filesystem_untouched `{Platform} r options p w :
  let w' := snd (invocation r options p w) in
  (∃ k, world_fs w' = apply_changes (take k (world_pending w)) (world_fs w)
        ∧ world_pending w' = drop k (world_pending w))
  ∧ (world_pending w = [] → world_fs w' = world_fs w)
  ∧ Forall (λ ev, fs_access ev = Some p ∨ is_Some (logger_call ev))
      (new_events w w').
Proof.
  intros w'. subst w'.
  pose proof (tame_invocation r options p) as Ht. repeat split.
  - by apply (tame_read_only (invocation_event p)).
  - intros Hq. by destruct (tame_quiet_again _ _ w Ht Hq) as (_ & ? & _).
  - eapply Forall_impl; [apply (tame_new_events _ _ w Ht)|].
    intros ev [?|(err & msg & -> & _)]; [by left|by right].
Qed.

Lemma C9_witness :
  world_fs (snd (@LoaderV2.yamlFileLoader posix_platform (opts false)
                   "/app/broken.yaml" (quiet test_fs)))
  = test_fs.
Proof.
  exact (proj1 (proj2 (@C9_filesystem_untouched posix_platform Rev2 (opts false)
                         "/app/broken.yaml" (quiet test_fs))) eq_refl).
Defined.

(** C10.  The success path hands on what the parser gave, whatever it is:
    in either revision and under either setting of [throwOnError], a
    readable regular file whose text parses to [v] makes the invocation
    resolve with [v], mapping or not.  So a file that parses to anything
    but [{}], such as an empty file parsed to [undefined], is told apart
    from a suppressed error. *)
Theorem C10_parse_result_unchanged `{Platform} r options p w e text v :
  world_pending w = [] →
  world_fs w !! p = Some e →
  entry_kind e = RegularFile →
  entry_read e = Normal text →
  yaml_load text = Normal v →
  fst (invocation r options p w) = Normal v
  ∧ (v ≠ empty_object → fst (invocation r options p w) ≠ Normal empty_object).
Proof.
  intros Hq Hp Hk Hr Hy.
  rewrite (regular_file_resolves r options p w e text v) by done.
  split; [done|]. simpl. intros Hv [= ->]. by apply Hv.
Qed.

Lemma C10_witness :
  fst (@LoaderV2.yamlFileLoader posix_platform (opts false) "/app/empty.yaml"
         (quiet test_fs)) = Normal JUndefined
  ∧ fst (@LoaderV2.yamlFileLoader posix_platform (opts false) "/app/empty.yaml"
           (quiet test_fs)) ≠ Normal empty_object.
Proof.
  destruct (@C10_parse_result_unchanged posix_platform Rev2 (opts false)
              "/app/empty.yaml" (quiet test_fs) (file EmptyString) EmptyString JUndefined
              eq_refl eq_refl eq_refl eq_refl eq_refl) as [Hv Hne].
  split; [exact Hv | exact (Hne ltac:(discriminate))].
Defined.

(** * Further properties of the loaders *)

(** All the ways an invocation can go: the options, the other processes'
    turns, and what the filesystem and the parser answer. *)
Ltac explore :=
  repeat (simpl in *;
          first [ progress simplify_eq
                | case_match ]).

Ltac worlds w :=
  let fs := fresh "fs" in
  let tr := fresh "tr" in
  destruct w as [fs tr [|? [|? ?]]].

(** The concrete model is one environment among all. *)
Lemma model_is_instance `{Platform} r options p :
  AnyEnv.invocation r (model_env (logger options)) (throwOnError options) p
  = invocation r options p.
Proof. destruct r; reflexivity. Qed.

Lemma model_logger_returns `{Platform} lg : logger_returns (model_env lg).
Proof. intros err message w. eexists. reflexivity. Qed.

Ltac run_env :=
  unfold AnyEnv.invocation, AnyEnv.LoaderV1.yamlFileLoader,
    AnyEnv.LoaderV1.yamlLoader, AnyEnv.LoaderV2.yamlFileLoader,
    AnyEnv.LoaderV3.yamlFileLoader, AnyEnv.existence_check,
    AnyEnv.catch_handler, env_exists, call_path_join, throw_if, try_catch,
    bind, ret, throw, emit in *;
  simpl in *.

Ltac logger_threw :=
  match goal with
  | Hl : env_logger ?env ?err ?msg ?w = (Abrupt ?e, _)
    |- thrown_by_logger ?env ?e => exists err, msg, w; by rewrite Hl
  end.

Ltac logger_cannot_throw Hret :=
  match goal with
  | Hl : env_logger ?env ?err ?msg ?w = (Abrupt _, _) |- _ =>
      destruct (Hret err msg w) as [? ?]; congruence
  end.

(** X1.  Without [throwOnError], over any environment (any filesystem
    answers, any system errors, any parser, any logger): an invocation of
    either revision rejects only with a value that the logger itself threw,
    and so does the factory of the first revision.  Hence with a logger
    that returns, no invocation rejects: it resolves with [{}] or with what
    the parser returned; and the factory returns the loader. *)
Theorem no_throw_never_rejects `{Platform} r env flag p tokens w :
  truthy flag = false →
  let run := AnyEnv.invocation r env flag p w in
  let build := AnyEnv.LoaderV1.yamlLoader env flag tokens w in
  (∀ e, fst run = Abrupt e → thrown_by_logger env e)
  ∧ (∀ e, fst build = Abrupt e → thrown_by_logger env e)
  ∧ (logger_returns env →
     (∃ v, fst run = Normal v
           ∧ (v = empty_object
              ∨ ∃ text w1 w2, env_load env text w1 = (Normal v, w2)))
     ∧ fst build
       = Normal (AnyEnv.LoaderV1.yamlFileLoader env flag (path_join tokens))).
Proof.
  intros Hthr run build. subst run build. split; [|split].
  - intros e He. destruct r; run_env; rewrite Hthr in *; explore; logger_threw.
  - intros e He.
    unfold AnyEnv.LoaderV1.yamlLoader, AnyEnv.existence_check, env_exists,
      call_path_join, throw_if, bind, ret, emit in He.
    rewrite Hthr in He. explore; logger_threw.
  - intros Hret. split.
    + destruct r; run_env; rewrite Hthr in *; explore;
        try logger_cannot_throw Hret; eauto 10.
    + unfold AnyEnv.LoaderV1.yamlLoader, AnyEnv.existence_check, env_exists,
        call_path_join, throw_if, bind, ret, emit.
      rewrite Hthr. explore; try logger_cannot_throw Hret; done.
Qed.

Lemma no_throw_never_rejects_witness :
  ∃ v, fst (@LoaderV2.yamlFileLoader posix_platform (mkOptions None None)
              "/app/secret.yaml" (quiet test_fs)) = Normal v.
Proof.
  destruct (proj1 (proj2 (proj2 (@no_throw_never_rejects posix_platform Rev2
              (@model_env posix_platform None) None "/app/secret.yaml" []
              (quiet test_fs) eq_refl))
              (@model_logger_returns posix_platform None)))
    as (v & Hv & _).
  exists v. exact Hv.
Defined.

(** X2.  Over any environment, what an invocation of either revision
    rejects with is a value the logger itself threw, or else [throwOnError]
    is set and it is a fresh [Error] (class [Error]) whose message is
    [<SourcePath> 404] (second revision, path missing at the check) or
    [FILE DELETED OR A DIRECTORY-> <SourcePath> 404: <message>]: what
    [stat], [readFile] or the parser threw, whatever its class, never
    reaches the caller itself. *)
Theorem rejection_is_a_fresh_error `{Platform} r env flag p w e :
  fst (AnyEnv.invocation r env flag p w) = Abrupt e →
  thrown_by_logger env e
  ∨ (truthy flag = true
     ∧ ((r = Rev2 ∧ fst (env_existsSync env p w) = false
         ∧ e = ErrorInstance (mkError "Error" (p +:+ " 404")))
        ∨ ∃ err,
            e = ErrorInstance
                  (mkError "Error"
                     ("FILE DELETED OR A DIRECTORY-> " +:+ p +:+ " 404: "
                        +:+ match err with
                            | ErrorInstance inner => err_message inner
                            | PlainValue _ => EmptyString
                            end)))).
Proof.
  intros He.
  destruct r; run_env; destruct (truthy flag); explore;
    first
      [ left; logger_threw
      | right; split; [done|]; left; repeat split;
          first [done | by apply negb_true_iff]
      | right; split; [done|]; right;
          first [ eexists (ErrorInstance (mkError "Error" _)); reflexivity
                | exists (PlainValue JNull); reflexivity ] ].
Qed.

Lemma rejection_is_a_fresh_error_witness :
  fst (AnyEnv.invocation Rev2 (@throwing_logger_env posix_platform) None
         "/app/missing.yaml" (quiet test_fs))
  = Abrupt (PlainValue (JStr "logger down"))
  ∧ (thrown_by_logger (@throwing_logger_env posix_platform)
       (PlainValue (JStr "logger down"))
     ∨ (truthy None = true
        ∧ ((Rev2 = Rev2
            ∧ fst (env_existsSync (@throwing_logger_env posix_platform)
                     "/app/missing.yaml" (quiet test_fs)) = false
            ∧ PlainValue (JStr "logger down")
              = ErrorInstance (mkError "Error" ("/app/missing.yaml" +:+ " 404")))
           ∨ ∃ err,
               PlainValue (JStr "logger down")
               = ErrorInstance
                   (mkError "Error"
                      ("FILE DELETED OR A DIRECTORY-> " +:+ "/app/missing.yaml"
                         +:+ " 404: "
                         +:+ match err with
                             | ErrorInstance inner => err_message inner
                             | PlainValue _ => EmptyString
                             end))))).
Proof.
  split; [reflexivity|].
  exact (@rejection_is_a_fresh_error posix_platform Rev2
           (@throwing_logger_env posix_platform) None "/app/missing.yaml"
           (quiet test_fs) (PlainValue (JStr "logger down")) eq_refl).
Defined.

(** X3.  Errors are never silent.  The logger stays uncalled during an
    invocation exactly when the invocation meets no error: the path exists
    at the check (second revision), [stat] finds a regular file, the read
    gives a text and the parser a value; and then the invocation resolves
    with that value.  So a [{}] that stands for a suppressed error, and
    every rejection, comes with a call of the logger. *)
Theorem silent_iff_clean_read `{Platform} r options p w :
  let run := invocation r options p w in
  (logger_calls (new_events w (snd run)) = [] ↔ ∃ v, clean_read r p w v)
  ∧ (∀ v, clean_read r p w v → fst run = Normal v).
Proof.
  intros run. subst run. unfold clean_read. split; [split|].
  - destruct options as [thr [id|]];
      worlds w; destruct r; run; destruct (truthy thr);
      explore; events; unfold logger_calls; simpl; intros; simplify_eq;
      try (eexists; split; [first [done | by apply negb_false_iff]|];
           do 2 eexists; repeat split; eauto; done).
  - intros (v & Hex & s & text & Hs & Hf & Hr & Hy).
    destruct options as [thr [id|]];
      worlds w; destruct r; run; rewrite ?Hex; simpl; rewrite Hs; simpl;
      rewrite Hf; simpl; rewrite Hr; simpl; rewrite Hy; events; done.
  - intros v (Hex & s & text & Hs & Hf & Hr & Hy).
    worlds w; destruct r; run; rewrite ?Hex; simpl; rewrite Hs; simpl;
      rewrite Hf; simpl; rewrite Hr; simpl; rewrite Hy; done.
Qed.

Lemma silent_iff_clean_read_witness :
  fst (@LoaderV2.yamlFileLoader posix_platform (opts true) "/app/test.yaml"
         (quiet test_fs)) = Normal test_document.
Proof.
  apply (proj2 (@silent_iff_clean_read posix_platform Rev2 (opts true)
                  "/app/test.yaml" (quiet test_fs)) test_document).
  split; [reflexivity|]. exists (mkStats RegularFile), test_yaml.
  repeat split; reflexivity.
Defined.

(** X4.  With [throwOnError] set, an invocation of either revision rejects
    exactly when it called the logger: nothing that was logged is resolved
    over, and nothing is rejected unlogged. *)
Theorem throw_mode_rejects_iff_logged `{Platform} r options p w :
  truthy (throwOnError options) = true →
  let run := invocation r options p w in
  (∃ e, fst run = Abrupt e) ↔ logger_calls (new_events w (snd run)) ≠ [].
Proof.
  intros Hthr run. subst run.
  destruct options as [thr [id|]]; simpl in Hthr;
    worlds w; destruct r; run; rewrite Hthr;
    explore; events; unfold logger_calls; simpl;
    (split; [intros [? ?]; by simplify_eq | intros ?; by eauto]).
Qed.

Lemma throw_mode_rejects_iff_logged_witness :
  logger_calls (new_events (quiet test_fs)
    (snd (@LoaderV1.yamlFileLoader posix_platform (opts true)
            "/app/secret.yaml" (quiet test_fs)))) ≠ [].
Proof.
  apply (@throw_mode_rejects_iff_logged posix_platform Rev1 (opts true)
           "/app/secret.yaml" (quiet test_fs) eq_refl).
  eexists. reflexivity.
Defined.





(** X8.  The logger is only told.  Which logger is configured, the default
    or a callback, changes neither the outcome of an invocation, nor its
    accesses to the filesystem, nor the errors and messages the logger is
    called with. *)
Theorem logger_choice_is_unobserved `{Platform} r flag lg lg' p w :
  let run := invocation r (mkOptions flag lg) p w in
  let run' := invocation r (mkOptions flag lg') p w in
  fst run = fst run'
  ∧ fs_operations (new_events w (snd run)) = fs_operations (new_events w (snd run'))
  ∧ logger_calls (new_events w (snd run)) = logger_calls (new_events w (snd run')).
Proof.
  intros run run'. subst run run'.
  destruct lg as [id|], lg' as [id'|];
    worlds w; destruct r; run; destruct (truthy flag);
    explore; events; done.
Qed.

(** X9.  The default logger prints, a callback replaces it.  With no logger
    given, each call of the logger during an invocation is one
    [console.log(message, err)], message first, and no callback runs; with
    a callback given, each call goes to that callback and nothing is
    printed. *)
Theorem default_logger_prints `{Platform} r flag lg p w :
  let evs := new_events w (snd (invocation r (mkOptions flag lg) p w)) in
  match lg with
  | None =>
      console_output evs = map (λ call, (call.2, call.1)) (logger_calls evs)
      ∧ callback_calls evs = []
  | Some id =>
      callback_calls evs = map (λ call, (id, call.1, call.2)) (logger_calls evs)
      ∧ console_output evs = []
  end.
Proof.
  intros evs. subst evs.
  destruct lg as [id|];
    worlds w; destruct r; run; destruct (truthy flag);
    explore; events; done.
Qed.

(** ** The messages *)

Lemma append_length (a b : string) :
  String.length (a +:+ b) = String.length a + String.length b.
Proof. induction a as [|c a IH]; simpl; [done|]. by rewrite IH. Qed.

Lemma append_cancel_l (s a b : string) : s +:+ a = s +:+ b → a = b.
Proof. induction s as [|c s IH]; simpl; [done|]. intros [= Heq]. by apply IH. Qed.

(** X10.  The three messages of a loader can be told apart, and the
    composed one gives the original message back: for one path, the message
    of the existence check, the message for an entry that is not a file and
    a composed message of the handler are pairwise different strings, and
    two composed messages are equal only if the messages they wrap are. *)
Theorem messages_tell_apart (p : string) (err err' : JsThrown) :
  not_found_message p ≠ not_a_file_message p
  ∧ not_found_message p ≠ generic_message p err
  ∧ not_a_file_message p ≠ generic_message p err
  ∧ (generic_message p err = generic_message p err' →
     message_or_empty err = message_or_empty err').
Proof.
  unfold not_found_message, not_a_file_message, generic_message.
  repeat split.
  - intros Heq%(f_equal String.length).
    rewrite !append_length in Heq. simpl in Heq. lia.
  - intros Heq%(f_equal String.length).
    rewrite !append_length in Heq. simpl in Heq. lia.
  - intros Heq%(f_equal String.length).
    rewrite !append_length in Heq. simpl in Heq. lia.
  - intros Heq. by do 3 apply append_cancel_l in Heq.
Qed.

(** ** The revisions against each other *)



(** ** The documented copy *)

Ltac run3 :=
  unfold LoaderV3.yamlLoader, LoaderV3.yamlFileLoader in *; run.

Lemma tame_documented_copy `{Platform} options p :
  tame (invocation_event p) (LoaderV3.yamlFileLoader options p).
Proof.
  unfold LoaderV3.yamlFileLoader, existsSync, stat, readFile.
  repeat first [apply tame_catch_handler | tame_step].
Qed.



(** X13.  The documented copy only reads and keeps nothing between calls:
    the filesystem it leaves is the one it found, changed by other
    processes alone; its events are accesses to its path and calls of the
    logger with a message that holds the path; and two worlds that differ
    only in their history give the same outcome and the same events. *)
Theorem documented_copy_reads_only `{Platform} options p w :
  let w' := snd (LoaderV3.yamlFileLoader options p w) in
  (∃ k, world_fs w' = apply_changes (take k (world_pending w)) (world_fs w)
        ∧ world_pending w' = drop k (world_pending w))
  ∧ Forall (invocation_event p) (new_events w w')
  ∧ (∀ wb, world_fs w = world_fs wb → world_pending w = world_pending wb →
       fst (LoaderV3.yamlFileLoader options p w)
       = fst (LoaderV3.yamlFileLoader options p wb)
       ∧ new_events w w'
         = new_events wb (snd (LoaderV3.yamlFileLoader options p wb))).
Proof.
  intros w'. subst w'. pose proof (tame_documented_copy options p) as Ht.
  repeat split.
  - by apply (tame_read_only (invocation_event p)).
  - by apply tame_new_events.
  - by destruct (tame_same_outcome _ _ w wb Ht) as (? & ? & _).
  - by destruct (tame_same_outcome _ _ w wb Ht) as (? & ? & _).
Qed.

Lemma documented_copy_reads_only_witness :
  fst (@LoaderV3.yamlFileLoader posix_platform (opts true) "/app/test.yaml"
         (quiet test_fs))
  = fst (@LoaderV3.yamlFileLoader posix_platform (opts true) "/app/test.yaml"
           (mkWorld test_fs [EvStat "/app"] [])).
Proof.
  exact (proj1 (proj2 (proj2 (@documented_copy_reads_only posix_platform
           (opts true) "/app/test.yaml" (quiet test_fs)))
           (mkWorld test_fs [EvStat "/app"] []) eq_refl eq_refl)).
Defined.

(** The slip of the second revision is in the documented copy too. *)
Lemma documented_copy_logs_directory_twice `{Platform} options p w entry :
  world_pending w = [] →
  world_fs w !! p = Some entry →
  entry_kind entry ≠ RegularFile →
  truthy (throwOnError options) = true →
  let copy := LoaderV3.yamlFileLoader options p w in
  let msg := "Source " +:+ p +:+ " is not a file" in
  let composed := "FILE DELETED OR A DIRECTORY-> " +:+ p +:+ " 404: " +:+ msg in
  fst copy = Abrupt (ErrorInstance (mkError "Error" composed))
  ∧ logger_calls (new_events w (snd copy)) =
      [(PlainValue (JObj [("msg", JStr msg)]), msg);
       (ErrorInstance (mkError "Error" msg), composed)].
Proof.
  intros Hq Hp Hk%not_regular_isFile Hthr copy msg composed.
  subst copy msg composed.
  destruct w as [fs tr pend]; simpl in *; subst pend.
  run3; unfold exists_in, stat_in; known. split; [done|]. events.
  unfold logger_calls; simpl. by rewrite !logger_call_event.
Qed.

(** X14.  The failure policy of the documented copy, over any environment,
    and the slip it keeps.  Without [throwOnError] it rejects only with what
    the logger itself threw, hence never when the logger returns.  Whatever
    it rejects with is a value the logger threw or, [throwOnError] being
    set, a fresh [Error] with the message of the check or a composed
    message.  And in the concrete model, on an entry that is not a
    regular file, with [throwOnError] set and no other process interfering,
    it calls the logger twice and rejects with the composed message, the
    throw inside [try] being caught by its own handler. *)
Theorem documented_copy_failure_policy `{Platform} env flag options p w :
  let run := AnyEnv.LoaderV3.yamlFileLoader env flag p w in
  (truthy flag = false → ∀ e, fst run = Abrupt e → thrown_by_logger env e)
  ∧ (truthy flag = false → logger_returns env → ∃ v, fst run = Normal v)
  ∧ (∀ e, fst run = Abrupt e →
       thrown_by_logger env e
       ∨ (truthy flag = true
          ∧ (e = ErrorInstance (mkError "Error" (p +:+ " 404"))
             ∨ ∃ err,
                 e = ErrorInstance
                       (mkError "Error"
                          ("FILE DELETED OR A DIRECTORY-> " +:+ p +:+ " 404: "
                             +:+ match err with
                                 | ErrorInstance inner => err_message inner
                                 | PlainValue _ => EmptyString
                                 end)))))
  ∧ (∀ entry, world_pending w = [] → world_fs w !! p = Some entry →
       entry_kind entry ≠ RegularFile → truthy (throwOnError options) = true →
       let copy := LoaderV3.yamlFileLoader options p w in
       let msg := "Source " +:+ p +:+ " is not a file" in
       let composed := "FILE DELETED OR A DIRECTORY-> " +:+ p +:+ " 404: " +:+ msg in
       fst copy = Abrupt (ErrorInstance (mkError "Error" composed))
       ∧ logger_calls (new_events w (snd copy)) =
           [(PlainValue (JObj [("msg", JStr msg)]), msg);
            (ErrorInstance (mkError "Error" msg), composed)]).
Proof.
  intros run. subst run. split; [|split; [|split]].
  - intros Hthr e He. run_env; rewrite Hthr in *; explore; logger_threw.
  - intros Hthr Hret. run_env; rewrite Hthr in *; explore;
      try logger_cannot_throw Hret; eauto.
  - intros e He. run_env; destruct (truthy flag); explore;
      first
        [ left; logger_threw
        | right; split; [done|]; left; done
        | right; split; [done|]; right;
            first [ eexists (ErrorInstance (mkError "Error" _)); reflexivity
                  | exists (PlainValue JNull); reflexivity ] ].
  - intros entry. apply documented_copy_logs_directory_twice.
Qed.

Lemma documented_copy_failure_policy_witness :
  thrown_by_logger (@throwing_logger_env posix_platform)
    (PlainValue (JStr "logger down"))
  ∧ length (logger_calls (new_events (quiet test_fs)
      (snd (@LoaderV3.yamlFileLoader posix_platform (opts true) "/app"
              (quiet test_fs))))) = 2.
Proof.
  split.
  - exact (proj1 (@documented_copy_failure_policy posix_platform
             (@throwing_logger_env posix_platform) None (opts true)
             "/app/missing.yaml" (quiet test_fs))
             eq_refl (PlainValue (JStr "logger down")) eq_refl).
  - rewrite (proj2 (proj2 (proj2 (proj2 (@documented_copy_failure_policy
               posix_platform (@model_env posix_platform None) None (opts true) "/app"
               (quiet test_fs)))) directory
               eq_refl eq_refl ltac:(discriminate) eq_refl)).
    reflexivity.
Defined.
